(** * Numeric field filter state (NumericFieldFilter.state.ts)

    A shallow embedding of the selectors of
    [app/packages/app/src/components/Filters/NumericFieldFilter.state.ts]:
    the bounds of a field ([boundsAtom]), the derived filter ([getFilter],
    [rangeAtom], [noneAtom]), the write path ([setFilter]) and the
    is-filtered predicate ([fieldIsFiltered]).

    Recoil's [get] is a pure read of the upstream atoms, so every selector is
    a function of an environment [Env] (field types, statistics, the objects
    the statistics refer to) and of the filter store; Recoil's [set] returns
    the updated store. *)

From Stdlib Require Import ZArith Bool List Lia.
From stdpp Require Import base decidable option strings gmap.

Local Open Scope list_scope.

(** ** JavaScript values held by a bounds pair

    A bound is [null], [undefined], a number, or a reference to an object
    (a wrapped date, [{_cls: "DateTime", datetime: ...}]).

    Numbers are modelled by [Z]. The code never computes with a bound: it
    only compares bounds ([===], [!==], [<], [>]), tests them for truthiness
    and passes them on, so an order-preserving reading of the finite numbers
    that occur (time stamps, integer and real bounds) as integers loses
    nothing. [NaN] is not modelled: the statistics arrive as JSON, which has
    no [NaN]. *)
Inductive value : Type :=
  | VNull
  | VUndefined
  | VNum (n : Z)
  | VRef (loc : nat).

#[global] Instance value_eq_dec : EqDecision value.
Proof. solve_decision. Defined.

(** [a === b]: primitives by value, objects by reference. *)
Definition strict_eq (a b : value) : bool :=
  match a, b with
  | VNull, VNull => true
  | VUndefined, VUndefined => true
  | VNum x, VNum y => (x =? y)%Z
  | VRef l, VRef l' => (l =? l')%nat
  | _, _ => false
  end.

(** The condition of [v ? _ : _]. *)
Definition truthy (v : value) : bool :=
  match v with
  | VNull | VUndefined => false
  | VNum n => negb (n =? 0)%Z
  | VRef _ => true
  end.

(** [ToNumber] as the relational operators apply it: [null] is [0];
    [undefined] and an object (whose primitive is the string
    "[object Object]") are [NaN], here [None]. *)
Definition to_number (v : value) : option Z :=
  match v with
  | VNull => Some 0%Z
  | VNum n => Some n
  | VUndefined | VRef _ => None
  end.

(** [a < b] and [a > b]; a comparison with [NaN] is false. *)
Definition js_lt (a b : value) : bool :=
  match to_number a, to_number b with
  | Some x, Some y => (x <? y)%Z
  | _, _ => false
  end.

Definition js_gt (a b : value) : bool := js_lt b a.

(** [Range] of [./RangeSlider]: a pair of nullable numbers. *)
Definition Range : Type := value * value.

(** ** The environment read through [get] *)

(** The constants imported from [../../utils/labels], which the selectors
    only compare with; they are taken as parameters. *)
Record Labels : Type := {
  LIST_FIELD : string;
  DATE_TIME_FIELD : string;
  DATE_FIELD : string;
  AGGS_BOUNDS : string
}.

(** An entry of [selectors.datasetStats]. [result] is read only for the
    entries of kind [AGGS.BOUNDS], where it is a two-element array. *)
Record StatEntry : Type := {
  name : string;
  stat_CLS : string;
  result : Range
}.

Record Env : Type := {
  labels : Labels;
  (** [selectors.primitivesMap("sample")] *)
  primitivesMap : gmap string string;
  (** [selectors.primitivesSubfieldMap("sample")] *)
  primitivesSubfieldMap : gmap string string;
  (** [selectors.datasetStats], possibly [null] or [undefined] *)
  datasetStats : option (list StatEntry);
  (** the [datetime] property of the objects that bounds refer to *)
  heap : gmap nat value
}.

(** ** Field-type predicates *)

Definition isDateTimeField (e : Env) (name : string) : bool :=
  let map := primitivesMap e in
  let map :=
    if bool_decide (map !! name = Some (LIST_FIELD (labels e)))
    then primitivesSubfieldMap e else map in
  bool_decide (Some (DATE_TIME_FIELD (labels e)) = map !! name).

Definition isDateField (e : Env) (name : string) : bool :=
  let map := primitivesMap e in
  let map :=
    if bool_decide (map !! name = Some (LIST_FIELD (labels e)))
    then primitivesSubfieldMap e else map in
  bool_decide (Some (DATE_FIELD (labels e)) = map !! name).

(** ** Bounds resolution *)

(** [v.datetime], for a truthy [v]: the property of the object, and
    [undefined] on a number, which has no such property. *)
Definition datetime (e : Env) (v : value) : value :=
  match v with
  | VRef l => default VUndefined (heap e !! l)
  | _ => VUndefined
  end.

(** [(v) => (v ? v.datetime : v)] *)
Definition unwrapDate (e : Env) (v : value) : value :=
  if truthy v then datetime e v else v.

(** The guard of the reducer: [cur.name !== path || cur._CLS !== AGGS.BOUNDS]. *)
Definition skipped (e : Env) (path : string) (cur : StatEntry) : bool :=
  negb (bool_decide (name cur = path))
  || negb (bool_decide (stat_CLS cur = AGGS_BOUNDS (labels e))).

(** What the reducer returns for an entry it does not skip. *)
Definition entryBounds (e : Env) (path : string) (cur : StatEntry) : Range :=
  if isDateTimeField e path || isDateField e path
  then (unwrapDate e (fst (result cur)), unwrapDate e (snd (result cur)))
  else result cur.

(** The callback of [reduce]. *)
Definition reducer (e : Env) (path : string) (acc : Range) (cur : StatEntry) : Range :=
  if skipped e path cur then acc else entryBounds e path cur.

(** [(get(selectors.datasetStats) ?? []).reduce(..., [null, null])] *)
Definition statBounds (e : Env) (path : string) : Range :=
  fold_left (reducer e path) (default [] (datasetStats e)) (VNull, VNull).

Definition boundsAtom (e : Env) (path : string) (defaultRange : option Range) : Range :=
  let bounds := statBounds e path in
  if strict_eq (fst bounds) VNull && strict_eq (snd bounds) VNull then bounds
  else
    let bounds :=
      match defaultRange with
      | Some (maxMin, minMax) =>
          (if js_lt maxMin (fst bounds) then maxMin else fst bounds,
           if js_gt minMax (snd bounds) then minMax else snd bounds)
      | None => bounds
      end in
    (fst bounds, snd bounds).

(** ** Filter records and the filter store *)

Record NumericFilter : Type := {
  range : Range;
  none : bool;
  _CLS : string
}.

#[global] Instance NumericFilter_eq_dec : EqDecision NumericFilter.
Proof. solve_decision. Defined.

(** [{ ...f, none: b }] *)
Definition with_none (b : bool) (f : NumericFilter) : NumericFilter :=
  {| range := range f; none := b; _CLS := _CLS f |}.

(** Modelled from the spec: reading the persisted filter store
    [filterStage], which is defined in [./atoms]. The spec gives it as a keyed
    store, "get/set by (field path, modal-context boolean) -> filter record
    or absent"; an absent key contributes no property to an object spread. *)
Definition filterStage_get (st : gmap (bool * string) NumericFilter)
    (modal : bool) (path : string) : option NumericFilter :=
  st !! (modal, path).

(** Modelled from the spec: writing the persisted filter store [filterStage]
    of [./atoms]; a record is stored under the key, and [null] clears the
    key, "set to absent/unset". *)
Definition filterStage_set (st : gmap (bool * string) NumericFilter)
    (modal : bool) (path : string) (v : option NumericFilter)
    : gmap (bool * string) NumericFilter :=
  match v with
  | Some f => <[(modal, path) := f]> st
  | None => delete (modal, path) st
  end.

(** ** Reading a filter *)

Definition meetsDefault (filter : NumericFilter) (bounds : Range) : bool :=
  (strict_eq (fst (range filter)) (fst bounds)
   && strict_eq (snd (range filter)) (snd bounds))
  && bool_decide (none filter = true).

(** [result] spreads the stored record over the defaults; a stored record
    carries the three properties, so it replaces all of them. *)
Definition getFilter (e : Env) (st : gmap (bool * string) NumericFilter)
    (modal : bool) (path : string) (defaultRange : option Range) : NumericFilter :=
  let bounds := boundsAtom e path defaultRange in
  let result :=
    match filterStage_get st modal path with
    | Some stored => stored
    | None => {| range := bounds; none := true; _CLS := "numeric" |}
    end in
  if negb (meetsDefault (with_none true result) bounds)
  then with_none false result
  else result.

(** ** Writing a filter *)

(** [setFilter] is private to the module. Its callers pass the key "range"
    ([rangeAtom]) or "none" ([noneAtom]), and a value of type
    [boolean | Range | DefaultValue]; [DefaultValue] is the object Recoil
    hands to a setter on reset. *)
Inductive Key : Type := KRange | KNone.

Inductive SetValue : Type :=
  | SBool (b : bool)
  | SRange (r : Range)
  | SDefault.

(** [Boolean(value)]: arrays and objects are truthy. *)
Definition Boolean (v : SetValue) : bool :=
  match v with
  | SBool b => b
  | SRange _ | SDefault => true
  end.

(** A write returns the new store, or throws before it reaches [set]. *)
Inductive Outcome : Type :=
  | Done (st : gmap (bool * string) NumericFilter)
  | TypeError.

(** [filter] is [{range: bounds, ...getFilter(..), [key]: value, _CLS: "numeric"}].
    Its [none] is never read: [check] and the persisted record both overwrite
    it. Its [range] is the derived range, or [value] when the key is "range";
    [meetsDefault] calls [every] on it, which throws when [value] is not an
    array. *)
Definition setFilter (e : Env) (st : gmap (bool * string) NumericFilter)
    (modal : bool) (path : string) (key : Key) (value : SetValue)
    (defaultRange : option Range) : Outcome :=
  let bounds := boundsAtom e path defaultRange in
  let current := getFilter e st modal path defaultRange in
  let filter_range :=
    match key with
    | KRange => value
    | KNone => SRange (range current)
    end in
  let check_none :=
    match key with
    | KNone => Boolean value
    | KRange => true
    end in
  match filter_range with
  | SRange r =>
      let check := {| range := r; none := check_none; _CLS := "numeric" |} in
      if meetsDefault check bounds
      then Done (filterStage_set st modal path None)
      else Done (filterStage_set st modal path
                   (Some {| range := r; none := false; _CLS := "numeric" |}))
  | SBool _ | SDefault => TypeError
  end.

(** ** The selectors *)

Definition rangeAtom_get (e : Env) (st : gmap (bool * string) NumericFilter)
    (defaultRange : option Range) (modal : bool) (path : string) : Range :=
  range (getFilter e st modal path defaultRange).

Definition rangeAtom_set (e : Env) (st : gmap (bool * string) NumericFilter)
    (defaultRange : option Range) (modal : bool) (path : string)
    (value : SetValue) : Outcome :=
  setFilter e st modal path KRange value defaultRange.

Definition noneAtom_get (e : Env) (st : gmap (bool * string) NumericFilter)
    (defaultRange : option Range) (modal : bool) (path : string) : bool :=
  none (getFilter e st modal path defaultRange).

Definition noneAtom_set (e : Env) (st : gmap (bool * string) NumericFilter)
    (defaultRange : option Range) (modal : bool) (path : string)
    (value : SetValue) : Outcome :=
  setFilter e st modal path KNone value defaultRange.

(** [range[i] !== b && b !== null && range[i] !== null] *)
Definition differs (r b : value) : bool :=
  negb (strict_eq r b) && negb (strict_eq b VNull) && negb (strict_eq r VNull).

(** [modal] is optional in the parameter of the selector; the store is keyed
    by a boolean, and it is a boolean here. *)
Definition fieldIsFiltered (e : Env) (st : gmap (bool * string) NumericFilter)
    (path : string) (defaultRange : option Range) (modal : bool) : bool :=
  let none := noneAtom_get e st defaultRange modal path in
  let range := rangeAtom_get e st defaultRange modal path in
  let bounds := boundsAtom e path defaultRange in
  negb none
  || ((differs (fst range) (fst bounds) || differs (snd range) (snd bounds))
      && negb (strict_eq (fst bounds) (snd bounds))).

(** ** Sequences of writes *)

(** A write to one key of the store; the statistics and the override may
    change from one write to the next. *)
Record Write : Type := {
  w_env : Env;
  w_key : Key;
  w_value : SetValue;
  w_defaultRange : option Range
}.

(** A write that throws leaves the store as it was. *)
Definition applyWrite (modal : bool) (path : string)
    (st : gmap (bool * string) NumericFilter) (w : Write)
    : gmap (bool * string) NumericFilter :=
  match setFilter (w_env w) st modal path (w_key w) (w_value w) (w_defaultRange w) with
  | Done st' => st'
  | TypeError => st
  end.

Definition applyWrites (modal : bool) (path : string) (ws : list Write)
    (st : gmap (bool * string) NumericFilter) : gmap (bool * string) NumericFilter :=
  fold_left (applyWrite modal path) ws st.

(** ** Vocabulary of the statements *)

(** An entry of the statistics for [path] of kind bounds. *)
Definition matching (e : Env) (path : string) (cur : StatEntry) : Prop :=
  name cur = path /\ stat_CLS cur = AGGS_BOUNDS (labels e).

(** The lesser and the greater of two bounds, in the order of the
    language's own [<] and [>]: on two numbers they are the minimum and the
    maximum; [null] counts as [0]. *)
Definition lesser (a b : value) : value := if js_lt a b then a else b.

Definition greater (a b : value) : value := if js_gt a b then a else b.

(** The default record of a field whose bounds are [bounds]. *)
Definition defaultFilter (bounds : Range) : NumericFilter :=
  {| range := bounds; none := true; _CLS := "numeric" |}.

(** The element of a pair at an array index. *)
Definition at_index (r : Range) (i : nat) : value :=
  match i with
  | O => fst r
  | S _ => snd r
  end.

(** A user edit, as the two writable selectors accept it: a range through
    [rangeAtom], a flag through [noneAtom]. *)
Inductive Edit : Type :=
  | EditRange (r : Range)
  | EditNone (b : bool).

Definition edit_key (ed : Edit) : Key :=
  match ed with
  | EditRange _ => KRange
  | EditNone _ => KNone
  end.

Definition edit_value (ed : Edit) : SetValue :=
  match ed with
  | EditRange r => SRange r
  | EditNone b => SBool b
  end.

(** The new value merged into the current derived filter, with the kind tag
    forced. *)
Definition merged (current : NumericFilter) (ed : Edit) : NumericFilter :=
  match ed with
  | EditRange r => {| range := r; none := none current; _CLS := "numeric" |}
  | EditNone b => {| range := range current; none := b; _CLS := "numeric" |}
  end.

(** The merged record as the specification compares it with the default:
    "with the edited key's none coerced to boolean when the edited key is
    none", and as it is otherwise. *)
Definition spec_check (m : NumericFilter) (ed : Edit) : NumericFilter :=
  match ed with
  | EditRange _ => m
  | EditNone _ => with_none (Boolean (edit_value ed)) m
  end.

(** The store after a write as the specification gives it: cleared when the
    compared record "equals the default record {range: bounds, none: true}",
    and holding "the merged record with none forced to false" otherwise. *)
Definition spec_setFilter (st : gmap (bool * string) NumericFilter)
    (modal : bool) (path : string) (bounds : Range)
    (current : NumericFilter) (ed : Edit) : gmap (bool * string) NumericFilter :=
  if decide (spec_check (merged current ed) ed = defaultFilter bounds)
  then delete (modal, path) st
  else <[(modal, path) := with_none false (merged current ed)]> st.

(** The store keeps no record under the key, or one that deviates from the
    default whatever the bounds are. *)
Definition normalized (st : gmap (bool * string) NumericFilter)
    (modal : bool) (path : string) : Prop :=
  match filterStage_get st modal path with
  | None => True
  | Some stored => forall bounds, meetsDefault stored bounds = false
  end.

(** ** Sample environments *)

(** Sample values of the constants of [utils/labels]. *)
Definition sampleLabels : Labels :=
  {| LIST_FIELD := "fiftyone.core.fields.ListField";
     DATE_TIME_FIELD := "fiftyone.core.fields.DateTimeField";
     DATE_FIELD := "fiftyone.core.fields.DateField";
     AGGS_BOUNDS := "Bounds" |}.

(** A float field "confidence" whose values span [[0, 10]], next to a count
    of the same field and the bounds of another one. *)
Definition confidenceEnv : Env :=
  {| labels := sampleLabels;
     primitivesMap :=
       {[ "confidence"%string := "fiftyone.core.fields.FloatField"%string ]};
     primitivesSubfieldMap := ∅;
     datasetStats :=
       Some [ {| name := "confidence"; stat_CLS := "Count";
                 result := (VNum 42, VUndefined) |};
              {| name := "confidence"; stat_CLS := "Bounds";
                 result := (VNum 0, VNum 10) |};
              {| name := "uniqueness"; stat_CLS := "Bounds";
                 result := (VNum 1, VNum 2) |} ];
     heap := ∅ |}.

(** A date-time field "created" whose bounds are two wrapped dates. *)
Definition createdEnv : Env :=
  {| labels := sampleLabels;
     primitivesMap :=
       {[ "created"%string := "fiftyone.core.fields.DateTimeField"%string ]};
     primitivesSubfieldMap := ∅;
     datasetStats :=
       Some [ {| name := "created"; stat_CLS := "Bounds";
                 result := (VRef 0, VRef 1) |} ];
     heap := {[ 0%nat := VNum 1000; 1%nat := VNum 2000 ]} |}.

(** A field "confidence" without any value: its bounds entry is there, and
    both of its bounds are [null]. *)
Definition emptyEntry : StatEntry :=
  {| name := "confidence"; stat_CLS := "Bounds"; result := (VNull, VNull) |}.

Definition emptyFieldEnv : Env :=
  {| labels := sampleLabels;
     primitivesMap :=
       {[ "confidence"%string := "fiftyone.core.fields.FloatField"%string ]};
     primitivesSubfieldMap := ∅;
     datasetStats := Some [ emptyEntry ];
     heap := ∅ |}.

(** Statistics that are not loaded yet. *)
Definition unloadedEnv : Env :=
  {| labels := sampleLabels;
     primitivesMap := ∅;
     primitivesSubfieldMap := ∅;
     datasetStats := None;
     heap := ∅ |}.

(** Sample stores for the main grid ([modal] is [false]). *)
Definition narrowedStore : gmap (bool * string) NumericFilter :=
  {[ (false, "confidence"%string) :=
       {| range := (VNum 2, VNum 8); none := false; _CLS := "numeric" |} ]}.

Definition redundantStore : gmap (bool * string) NumericFilter :=
  {[ (false, "confidence"%string) :=
       {| range := (VNum 0, VNum 10); none := true; _CLS := "numeric" |} ]}.

Definition flaggedStore : gmap (bool * string) NumericFilter :=
  {[ (false, "confidence"%string) :=
       {| range := (VNum 0, VNum 10); none := false; _CLS := "numeric" |} ]}.

(** Three writes to "confidence" in the main grid: the flag is switched
    off, the range is narrowed, and a reset of the range throws. *)
Definition sampleWrites : list Write :=
  [ {| w_env := confidenceEnv; w_key := KNone; w_value := SBool false;
       w_defaultRange := None |};
    {| w_env := confidenceEnv; w_key := KRange;
       w_value := SRange (VNum 2, VNum 8); w_defaultRange := None |};
    {| w_env := confidenceEnv; w_key := KRange; w_value := SDefault;
       w_defaultRange := Some (VNum 0, VNum 20) |} ].

(** ** The remaining field-type predicates *)

(** The other constants of [../../utils/labels] that the predicates compare
    with, taken as parameters like [Labels]. *)
Record FieldLabels : Type := {
  FRAME_SUPPORT_FIELD : string;
  INT_FIELD : string;
  VALID_LIST_FIELDS : list string;
  VALID_NUMERIC_TYPES : list string
}.

(** [l.includes(map[name])], where [map[name]] is [undefined] for a name the
    map does not have, and [l] holds strings only. *)
Definition includes (l : list string) (x : option string) : bool :=
  match x with
  | Some s => bool_decide (s ∈ l)
  | None => false
  end.

Definition isNumericField (fl : FieldLabels) (e : Env) (name : string) : bool :=
  let map := primitivesMap e in
  let map :=
    if includes (VALID_LIST_FIELDS fl) (map !! name)
    then primitivesSubfieldMap e else map in
  includes (VALID_NUMERIC_TYPES fl) (map !! name).

Definition isSupportField (fl : FieldLabels) (e : Env) (name : string) : bool :=
  let map := primitivesMap e in
  bool_decide (Some (FRAME_SUPPORT_FIELD fl) = map !! name).

Definition isIntField (fl : FieldLabels) (e : Env) (name : string) : bool :=
  let map := primitivesMap e in
  let map :=
    if includes (VALID_LIST_FIELDS fl) (map !! name)
    then primitivesSubfieldMap e else map in
  includes [FRAME_SUPPORT_FIELD fl; INT_FIELD fl] (map !! name).

(** The environment with other statistics. *)
Definition withStats (e : Env) (stats : option (list StatEntry)) : Env :=
  {| labels := labels e;
     primitivesMap := primitivesMap e;
     primitivesSubfieldMap := primitivesSubfieldMap e;
     datasetStats := stats;
     heap := heap e |}.

(** Sample values of the other constants. *)
Definition sampleFieldLabels : FieldLabels :=
  {| FRAME_SUPPORT_FIELD := "fiftyone.core.fields.FrameSupportField";
     INT_FIELD := "fiftyone.core.fields.IntField";
     VALID_LIST_FIELDS :=
       [ "fiftyone.core.fields.FrameSupportField"%string;
         "fiftyone.core.fields.ListField"%string ];
     VALID_NUMERIC_TYPES :=
       [ "fiftyone.core.fields.FloatField"%string;
         "fiftyone.core.fields.FrameNumberField"%string;
         "fiftyone.core.fields.FrameSupportField"%string;
         "fiftyone.core.fields.IntField"%string ] |}.

(** A list field "counts" of integers, next to a date field "day". *)
Definition countsEnv : Env :=
  {| labels := sampleLabels;
     primitivesMap :=
       {[ "counts"%string := "fiftyone.core.fields.ListField"%string;
          "day"%string := "fiftyone.core.fields.DateField"%string ]};
     primitivesSubfieldMap :=
       {[ "counts"%string := "fiftyone.core.fields.IntField"%string ]};
     datasetStats :=
       Some [ {| name := "day"; stat_CLS := "Bounds";
                 result := (VNum 86400000, VNum 172800000) |} ];
     heap := ∅ |}.

(** Two bounds entries for "confidence": the later one is the one read. *)
Definition repeatedEnv : Env :=
  withStats confidenceEnv
    (Some [ {| name := "confidence"; stat_CLS := "Bounds";
               result := (VNum (-100), VNum 100) |};
            {| name := "confidence"; stat_CLS := "Bounds";
               result := (VNum 3, VNum 4) |} ]).

(** A store with records for the grid and for the modal. *)
Definition twoViewStore : gmap (bool * string) NumericFilter :=
  {[ (false, "confidence"%string) :=
       {| range := (VNum 2, VNum 8); none := false; _CLS := "numeric" |};
     (true, "confidence"%string) :=
       {| range := (VNum 1, VNum 9); none := false; _CLS := "numeric" |} ]}.

(** * Properties *)

(** ** Values *)

Lemma strict_eq_true (a b : value) : strict_eq a b = true <-> a = b.
Proof.
  destruct a, b; simpl; split; intros H; try congruence; try discriminate.
  - apply Z.eqb_eq in H. congruence.
  - inversion H. apply Z.eqb_refl.
  - apply Nat.eqb_eq in H. congruence.
  - inversion H. apply Nat.eqb_refl.
Qed.

Lemma strict_eq_false (a b : value) : strict_eq a b = false <-> a <> b.
Proof.
  rewrite <- strict_eq_true. destruct (strict_eq a b); split; intros; congruence.
Qed.

Lemma strict_eq_refl (a : value) : strict_eq a a = true.
Proof. now apply strict_eq_true. Qed.

Lemma js_lt_num (x y : Z) : js_lt (VNum x) (VNum y) = (x <? y)%Z.
Proof. reflexivity. Qed.

Lemma pick_min (x y : Z) : (if (x <? y)%Z then x else y) = Z.min x y.
Proof. destruct (Z.ltb_spec x y); lia. Qed.

Lemma pick_max (x y : Z) : (if (y <? x)%Z then x else y) = Z.max x y.
Proof. destruct (Z.ltb_spec y x); lia. Qed.

(** ** The scan of the statistics *)

Lemma skipped_false (e : Env) (path : string) (cur : StatEntry) :
  skipped e path cur = false <-> matching e path cur.
Proof.
  unfold skipped, matching.
  rewrite orb_false_iff, !negb_false_iff, !bool_decide_eq_true. tauto.
Qed.

Lemma skipped_true (e : Env) (path : string) (cur : StatEntry) :
  skipped e path cur = true <-> ~ matching e path cur.
Proof.
  rewrite <- skipped_false. destruct (skipped e path cur); split; congruence.
Qed.

Lemma fold_reducer_skipped (e : Env) (path : string) (l : list StatEntry) (acc : Range) :
  (forall cur, cur ∈ l -> ~ matching e path cur) ->
  fold_left (reducer e path) l acc = acc.
Proof.
  revert acc. induction l as [|x l IH]; intros acc Hno; simpl.
  - reflexivity.
  - rewrite IH.
    + unfold reducer. rewrite (proj2 (skipped_true e path x)); [reflexivity|].
      apply Hno. now left.
    + intros cur Hin. apply Hno. now right.
Qed.

Lemma fold_reducer_last (e : Env) (path : string)
    (pre post : list StatEntry) (cur : StatEntry) (acc : Range) :
  matching e path cur ->
  (forall x, x ∈ post -> ~ matching e path x) ->
  fold_left (reducer e path) (pre ++ cur :: post) acc = entryBounds e path cur.
Proof.
  intros Hm Hpost. rewrite fold_left_app. simpl.
  rewrite fold_reducer_skipped by assumption.
  unfold reducer. now rewrite (proj2 (skipped_false e path cur)).
Qed.

Lemma statBounds_none (e : Env) (path : string) :
  (forall cur, cur ∈ default [] (datasetStats e) -> ~ matching e path cur) ->
  statBounds e path = (VNull, VNull).
Proof. intros H. unfold statBounds. now apply fold_reducer_skipped. Qed.

Lemma statBounds_last (e : Env) (path : string)
    (pre post : list StatEntry) (cur : StatEntry) :
  datasetStats e = Some (pre ++ cur :: post) ->
  matching e path cur ->
  (forall x, x ∈ post -> ~ matching e path x) ->
  statBounds e path = entryBounds e path cur.
Proof.
  intros Hs Hm Hpost. unfold statBounds. rewrite Hs. simpl.
  now apply fold_reducer_last.
Qed.

Lemma boundsAtom_none (e : Env) (path : string) (defaultRange : option Range) :
  (forall cur, cur ∈ default [] (datasetStats e) -> ~ matching e path cur) ->
  boundsAtom e path defaultRange = (VNull, VNull).
Proof.
  intros H. unfold boundsAtom. rewrite (statBounds_none e path H). reflexivity.
Qed.

Lemma boundsAtom_no_override (e : Env) (path : string) :
  boundsAtom e path None = statBounds e path.
Proof.
  unfold boundsAtom. destruct (statBounds e path) as [b0 b1]. simpl.
  now destruct (strict_eq b0 VNull && strict_eq b1 VNull).
Qed.

(** ** Bounds *)

(** C6. When the statistics, absent ones included, hold no entry whose name
    is the path and whose kind is bounds, [boundsAtom] returns
    [[null, null]], whatever override is supplied. *)
Theorem boundsAtom_null_fallback (e : Env) (path : string) (defaultRange : option Range) :
  (forall cur, cur ∈ default [] (datasetStats e) ->
     ~ (name cur = path /\ stat_CLS cur = AGGS_BOUNDS (labels e))) ->
  boundsAtom e path defaultRange = (VNull, VNull).
Proof. intros H. now apply boundsAtom_none. Qed.

Lemma boundsAtom_null_fallback_witness :
  boundsAtom unloadedEnv "confidence" (Some (VNum 0, VNum 1)) = (VNull, VNull)
  /\ boundsAtom confidenceEnv "missing" (Some (VNum 0, VNum 1)) = (VNull, VNull).
Proof.
  split.
  - apply (boundsAtom_null_fallback unloadedEnv "confidence" (Some (VNum 0, VNum 1))).
    simpl. intros cur Hin. inversion Hin.
  - apply (boundsAtom_null_fallback confidenceEnv "missing" (Some (VNum 0, VNum 1))).
    simpl. intros cur Hin [Hname _].
    repeat (apply elem_of_cons in Hin; destruct Hin as [->|Hin]; [discriminate|]).
    inversion Hin.
Defined.

Lemma lesser_num (x y : Z) : lesser (VNum x) (VNum y) = VNum (Z.min x y).
Proof.
  unfold lesser. rewrite js_lt_num, <- pick_min. now destruct (x <? y)%Z.
Qed.

Lemma greater_num (x y : Z) : greater (VNum x) (VNum y) = VNum (Z.max x y).
Proof.
  unfold greater, js_gt. rewrite js_lt_num, <- pick_max. now destruct (y <? x)%Z.
Qed.

Lemma boundsAtom_widened (e : Env) (path : string) (omin omax : value) :
  statBounds e path <> (VNull, VNull) ->
  boundsAtom e path (Some (omin, omax))
  = (lesser omin (fst (statBounds e path)), greater omax (snd (statBounds e path))).
Proof.
  intros Hnn. unfold boundsAtom.
  destruct (statBounds e path) as [b0 b1]. simpl.
  destruct (strict_eq b0 VNull && strict_eq b1 VNull) eqn:Hall; [|reflexivity].
  apply andb_true_iff in Hall. destruct Hall as [H0 H1].
  apply strict_eq_true in H0, H1. subst. contradiction.
Qed.

Lemma boundsAtom_null_data (e : Env) (path : string) (defaultRange : option Range) :
  statBounds e path = (VNull, VNull) ->
  boundsAtom e path defaultRange = (VNull, VNull).
Proof. intros Hb. unfold boundsAtom. now rewrite Hb. Qed.

(** C5, as the code has it. When the last entry of the statistics that
    matches the path (the only one, when there is one per field) gives data
    bounds [[dmin, dmax]] that are not both [null], and an override
    [[omin, omax]] is supplied, [boundsAtom] resolves to the lesser of [omin]
    and [dmin] and the greater of [omax] and [dmax], which on numbers are
    [min(omin, dmin)] and [max(omax, dmax)]. When both data bounds are
    [null], or when no entry matches, the override is not applied and the
    result is [[null, null]]. *)
Theorem boundsAtom_override_widens (e : Env) (path : string) :
  (forall pre cur post omin omax,
     datasetStats e = Some (pre ++ cur :: post) ->
     matching e path cur ->
     (forall x, x ∈ post -> ~ matching e path x) ->
     entryBounds e path cur <> (VNull, VNull) ->
     boundsAtom e path (Some (omin, omax))
     = (lesser omin (fst (entryBounds e path cur)),
        greater omax (snd (entryBounds e path cur))))
  /\ (forall pre cur post dmin dmax omin omax,
        datasetStats e = Some (pre ++ cur :: post) ->
        matching e path cur ->
        (forall x, x ∈ post -> ~ matching e path x) ->
        entryBounds e path cur = (VNum dmin, VNum dmax) ->
        boundsAtom e path (Some (VNum omin, VNum omax))
        = (VNum (Z.min omin dmin), VNum (Z.max omax dmax)))
  /\ (forall pre cur post omin omax,
        datasetStats e = Some (pre ++ cur :: post) ->
        matching e path cur ->
        (forall x, x ∈ post -> ~ matching e path x) ->
        entryBounds e path cur = (VNull, VNull) ->
        boundsAtom e path (Some (omin, omax)) = (VNull, VNull))
  /\ (forall omin omax,
        (forall cur, cur ∈ default [] (datasetStats e) -> ~ matching e path cur) ->
        boundsAtom e path (Some (omin, omax)) = (VNull, VNull)).
Proof.
  split; [|split; [|split]].
  - intros pre cur post omin omax Hs Hm Hpost Hnn.
    rewrite <- (statBounds_last e path pre post cur Hs Hm Hpost) in *.
    now apply boundsAtom_widened.
  - intros pre cur post dmin dmax omin omax Hs Hm Hpost Hb.
    rewrite boundsAtom_widened;
      rewrite (statBounds_last e path pre post cur Hs Hm Hpost), Hb.
    + simpl. now rewrite lesser_num, greater_num.
    + discriminate.
  - intros pre cur post omin omax Hs Hm Hpost Hb.
    apply boundsAtom_null_data.
    now rewrite (statBounds_last e path pre post cur Hs Hm Hpost).
  - intros omin omax H. now apply boundsAtom_none.
Qed.

Lemma boundsAtom_override_widens_witness :
  boundsAtom confidenceEnv "confidence" (Some (VNull, VNum 20))
  = (VNum 0, VNum 20)
  /\ boundsAtom confidenceEnv "confidence" (Some (VNum (-5), VNum 7))
     = (VNum (-5), VNum 10)
  /\ boundsAtom emptyFieldEnv "confidence" (Some (VNum (-5), VNum 20))
     = (VNull, VNull)
  /\ boundsAtom unloadedEnv "confidence" (Some (VNum (-5), VNum 7))
     = (VNull, VNull).
Proof.
  pose (count := {| name := "confidence"; stat_CLS := "Count";
                    result := (VNum 42, VUndefined) |}).
  pose (bounds := {| name := "confidence"; stat_CLS := "Bounds";
                     result := (VNum 0, VNum 10) |}).
  pose (other := {| name := "uniqueness"; stat_CLS := "Bounds";
                    result := (VNum 1, VNum 2) |}).
  assert (Hlast : forall x, x ∈ [other] -> ~ matching confidenceEnv "confidence" x).
  { intros x Hin [Hname _].
    apply elem_of_cons in Hin. destruct Hin as [->|Hin]; [discriminate|].
    inversion Hin. }
  split; [|split; [|split]].
  - refine (eq_trans
              (proj1 (boundsAtom_override_widens confidenceEnv "confidence")
                 [count] bounds [other] VNull (VNum 20) _ _ Hlast _) _).
    + reflexivity.
    + split; reflexivity.
    + discriminate.
    + reflexivity.
  - apply (proj1 (proj2 (boundsAtom_override_widens confidenceEnv "confidence"))
             [count] bounds [other] 0%Z 10%Z (-5)%Z 7%Z).
    + reflexivity.
    + split; reflexivity.
    + exact Hlast.
    + reflexivity.
  - apply (proj1 (proj2 (proj2 (boundsAtom_override_widens emptyFieldEnv "confidence")))
             [] emptyEntry [] (VNum (-5)) (VNum 20)).
    + reflexivity.
    + split; reflexivity.
    + intros x Hin. inversion Hin.
    + reflexivity.
  - apply (proj2 (proj2 (proj2 (boundsAtom_override_widens unloadedEnv "confidence")))).
    simpl. intros cur Hin. inversion Hin.
Defined.

(** C5, as the claim states it, fails on a field without values: the bounds
    entry of "confidence" matches, its data bounds are [[null, null]], and
    with the override [[-5, 20]] the claim gives the lesser of [-5] and
    [null] and the greater of [20] and [null], that is [[-5, 20]], while
    [boundsAtom] returns [[null, null]]. *)
Lemma boundsAtom_override_skipped_on_null_bounds :
  datasetStats emptyFieldEnv = Some [emptyEntry]
  /\ matching emptyFieldEnv "confidence" emptyEntry
  /\ entryBounds emptyFieldEnv "confidence" emptyEntry = (VNull, VNull)
  /\ (lesser (VNum (-5)) VNull, greater (VNum 20) VNull) = (VNum (-5), VNum 20)
  /\ boundsAtom emptyFieldEnv "confidence" (Some (VNum (-5), VNum 20))
     = (VNull, VNull)
  /\ boundsAtom emptyFieldEnv "confidence" (Some (VNum (-5), VNum 20))
     <> (lesser (VNum (-5)) (fst (entryBounds emptyFieldEnv "confidence" emptyEntry)),
         greater (VNum 20) (snd (entryBounds emptyFieldEnv "confidence" emptyEntry))).
Proof.
  split; [reflexivity|].
  split; [split; reflexivity|].
  split; [reflexivity|].
  split; [reflexivity|].
  split; [reflexivity|].
  vm_compute. discriminate.
Qed.

(** C7. For a path classified as a date or date-time field, [boundsAtom]
    returns the two elements of the matching entry's result each mapped
    through its [datetime] payload, a falsy element (such as [null]) being
    left as it is; for any other field the result is used as it is. *)
Theorem boundsAtom_unwraps_dates (e : Env) (path : string)
    (pre post : list StatEntry) (cur : StatEntry) :
  datasetStats e = Some (pre ++ cur :: post) ->
  matching e path cur ->
  (forall x, x ∈ post -> ~ matching e path x) ->
  (isDateTimeField e path || isDateField e path = true ->
     boundsAtom e path None
     = (unwrapDate e (fst (result cur)), unwrapDate e (snd (result cur))))
  /\ (isDateTimeField e path || isDateField e path = false ->
        boundsAtom e path None = result cur)
  /\ (forall l payload, heap e !! l = Some payload ->
        unwrapDate e (VRef l) = payload)
  /\ (forall v, truthy v = false -> unwrapDate e v = v).
Proof.
  intros Hs Hm Hpost.
  rewrite boundsAtom_no_override, (statBounds_last e path pre post cur Hs Hm Hpost).
  unfold entryBounds. repeat split.
  - intros ->. reflexivity.
  - intros ->. reflexivity.
  - intros l payload Hl. unfold unwrapDate. simpl. now rewrite Hl.
  - intros v Hv. unfold unwrapDate. now rewrite Hv.
Qed.

Lemma boundsAtom_unwraps_dates_witness :
  boundsAtom createdEnv "created" None = (VNum 1000, VNum 2000).
Proof.
  assert (Hd : isDateTimeField createdEnv "created"
               || isDateField createdEnv "created" = true) by reflexivity.
  refine (eq_trans
    (proj1 (boundsAtom_unwraps_dates createdEnv "created" [] []
              {| name := "created"; stat_CLS := "Bounds";
                 result := (VRef 0, VRef 1) |} _ _ _) Hd) _).
  - reflexivity.
  - split; reflexivity.
  - intros x Hin. inversion Hin.
  - reflexivity.
Defined.

(** ** Reading *)

Lemma meetsDefault_true (f : NumericFilter) (bounds : Range) :
  meetsDefault f bounds = true <-> range f = bounds /\ none f = true.
Proof.
  unfold meetsDefault.
  rewrite !andb_true_iff, !strict_eq_true, bool_decide_eq_true.
  destruct (range f) as [r0 r1], bounds as [b0 b1]. simpl.
  split.
  - intros [[-> ->] ->]. now split.
  - intros [Heq ->]. inversion Heq. now repeat split.
Qed.

Lemma meetsDefault_false (f : NumericFilter) (bounds : Range) :
  meetsDefault f bounds = false <-> ~ (range f = bounds /\ none f = true).
Proof.
  rewrite <- meetsDefault_true. destruct (meetsDefault f bounds); split; congruence.
Qed.

Lemma meetsDefault_decide (f : NumericFilter) (bounds : Range) :
  _CLS f = "numeric"%string ->
  meetsDefault f bounds = bool_decide (f = defaultFilter bounds).
Proof.
  intros Hc. destruct f as [r n c]. simpl in Hc. subst c.
  destruct (decide ({| range := r; none := n; _CLS := "numeric" |} = defaultFilter bounds))
    as [Heq|Hne].
  - rewrite bool_decide_eq_true_2 by assumption. apply meetsDefault_true.
    inversion Heq. now split.
  - rewrite bool_decide_eq_false_2 by assumption. apply meetsDefault_false.
    simpl. intros [-> ->]. now apply Hne.
Qed.

Lemma meetsDefault_none_false (f : NumericFilter) (bounds : Range) :
  none f = false -> meetsDefault f bounds = false.
Proof. intros H. apply meetsDefault_false. rewrite H. intros [_ Hc]. discriminate. Qed.

Lemma pair_differs (r b : Range) :
  r <> b <-> exists i, (i < 2)%nat /\ at_index r i <> at_index b i.
Proof.
  destruct r as [r0 r1], b as [b0 b1]. split.
  - intros Hne. destruct (decide (r0 = b0)) as [->|H0].
    + exists 1%nat. split; [lia|]. simpl. intros ->. now apply Hne.
    + exists 0%nat. split; [lia|]. exact H0.
  - intros [i [_ Hi]] Heq. inversion Heq. subst. now apply Hi.
Qed.

Lemma getFilter_absent (e : Env) (st : gmap (bool * string) NumericFilter)
    (modal : bool) (path : string) (defaultRange : option Range) :
  filterStage_get st modal path = None ->
  getFilter e st modal path defaultRange
  = defaultFilter (boundsAtom e path defaultRange).
Proof.
  intros Hst. unfold getFilter. rewrite Hst.
  unfold meetsDefault, with_none. simpl. now rewrite !strict_eq_refl.
Qed.

Lemma getFilter_stored (e : Env) (st : gmap (bool * string) NumericFilter)
    (modal : bool) (path : string) (defaultRange : option Range)
    (stored : NumericFilter) :
  filterStage_get st modal path = Some stored ->
  getFilter e st modal path defaultRange
  = if bool_decide (range stored = boundsAtom e path defaultRange)
    then stored else with_none false stored.
Proof.
  intros Hst. unfold getFilter. rewrite Hst.
  destruct (decide (range stored = boundsAtom e path defaultRange)) as [Heq|Hne].
  - rewrite bool_decide_eq_true_2 by assumption.
    now rewrite (proj2 (meetsDefault_true (with_none true stored) _)).
  - rewrite bool_decide_eq_false_2 by assumption.
    rewrite (proj2 (meetsDefault_false (with_none true stored) _)); [reflexivity|].
    simpl. intros [Heq _]. now apply Hne.
Qed.

(** Whenever the derived flag is [true], the derived range is the bounds. *)
Lemma getFilter_none_true (e : Env) (st : gmap (bool * string) NumericFilter)
    (modal : bool) (path : string) (defaultRange : option Range) :
  none (getFilter e st modal path defaultRange) = true ->
  range (getFilter e st modal path defaultRange) = boundsAtom e path defaultRange.
Proof.
  destruct (filterStage_get st modal path) as [stored|] eqn:Hst.
  - rewrite (getFilter_stored e st modal path defaultRange stored Hst).
    case_bool_decide as Heq; [intros _; exact Heq | discriminate].
  - now rewrite (getFilter_absent e st modal path defaultRange Hst).
Qed.

(** C3. With no stored record the derived filter is
    [{range: bounds, none: true}]; with a stored record whose range differs
    from the bounds at some position, or whose [none] is not [true], the
    derived [none] is [false]; with a stored record whose range is the bounds
    and whose [none] is [true], the derived filter is that record,
    unchanged. *)
Theorem getFilter_derives (e : Env) (st : gmap (bool * string) NumericFilter)
    (modal : bool) (path : string) (defaultRange : option Range) :
  (filterStage_get st modal path = None ->
     getFilter e st modal path defaultRange
     = {| range := boundsAtom e path defaultRange; none := true; _CLS := "numeric" |})
  /\ (forall stored,
        filterStage_get st modal path = Some stored ->
        (exists i, (i < 2)%nat
                   /\ at_index (range stored) i
                      <> at_index (boundsAtom e path defaultRange) i)
        \/ none stored <> true ->
        none (getFilter e st modal path defaultRange) = false)
  /\ (forall stored,
        filterStage_get st modal path = Some stored ->
        range stored = boundsAtom e path defaultRange ->
        none stored = true ->
        getFilter e st modal path defaultRange = stored).
Proof.
  split; [|split].
  - apply getFilter_absent.
  - intros stored Hst Hdev.
    rewrite (getFilter_stored e st modal path defaultRange stored Hst).
    case_bool_decide as Heq; [|reflexivity].
    destruct Hdev as [Hr|Hn].
    + apply pair_differs in Hr. contradiction.
    + now destruct (none stored).
  - intros stored Hst Hr _.
    rewrite (getFilter_stored e st modal path defaultRange stored Hst).
    now rewrite bool_decide_eq_true_2.
Qed.

Lemma getFilter_derives_witness :
  getFilter confidenceEnv ∅ false "confidence" None
  = {| range := (VNum 0, VNum 10); none := true; _CLS := "numeric" |}
  /\ none (getFilter confidenceEnv narrowedStore false "confidence" None) = false
  /\ none (getFilter confidenceEnv flaggedStore false "confidence" None) = false
  /\ getFilter confidenceEnv redundantStore false "confidence" None
     = {| range := (VNum 0, VNum 10); none := true; _CLS := "numeric" |}.
Proof.
  split; [|split; [|split]].
  - apply (proj1 (getFilter_derives confidenceEnv ∅ false "confidence" None)).
    reflexivity.
  - apply (proj1 (proj2 (getFilter_derives confidenceEnv narrowedStore false
                           "confidence" None))
             {| range := (VNum 2, VNum 8); none := false; _CLS := "numeric" |}).
    + reflexivity.
    + left. exists 0%nat. split; [lia|]. simpl. discriminate.
  - apply (proj1 (proj2 (getFilter_derives confidenceEnv flaggedStore false
                           "confidence" None))
             {| range := (VNum 0, VNum 10); none := false; _CLS := "numeric" |}).
    + reflexivity.
    + right. simpl. discriminate.
  - apply (proj2 (proj2 (getFilter_derives confidenceEnv redundantStore false
                           "confidence" None))
             {| range := (VNum 0, VNum 10); none := true; _CLS := "numeric" |});
      reflexivity.
Defined.

(** ** Writing *)

(** A reset of the flag is a write of [true]; a reset of the range throws. *)
Lemma setFilter_reset_none (e : Env) (st : gmap (bool * string) NumericFilter)
    (modal : bool) (path : string) (defaultRange : option Range) :
  setFilter e st modal path KNone SDefault defaultRange
  = setFilter e st modal path KNone (SBool true) defaultRange.
Proof. reflexivity. Qed.

Lemma setFilter_reset_range (e : Env) (st : gmap (bool * string) NumericFilter)
    (modal : bool) (path : string) (defaultRange : option Range) :
  setFilter e st modal path KRange SDefault defaultRange = TypeError.
Proof. reflexivity. Qed.

(** C1, as the code has it. A write of the key "range" whose value is a
    range, and a write of the key "none" with any value (a boolean, or the
    [DefaultValue] of a reset), merges the new value into the current derived
    filter. If the merged record, with its [none] replaced by [true] when the
    edited key is "range" and by [Boolean(value)] when the edited key is
    "none", equals the default record [{range: bounds, none: true}], the
    record of (path, modal) is cleared; otherwise the merged record is
    persisted with [none] forced to [false]. *)
Theorem setFilter_normalizes (e : Env) (st : gmap (bool * string) NumericFilter)
    (modal : bool) (path : string) (defaultRange : option Range) :
  let bounds := boundsAtom e path defaultRange in
  let current := getFilter e st modal path defaultRange in
  (forall r : Range,
     let m := {| range := r; none := none current; _CLS := "numeric" |} in
     setFilter e st modal path KRange (SRange r) defaultRange
     = Done (if decide (with_none true m = defaultFilter bounds)
             then delete (modal, path) st
             else <[(modal, path) := with_none false m]> st))
  /\ (forall value : SetValue,
        let m := {| range := range current; none := Boolean value;
                    _CLS := "numeric" |} in
        setFilter e st modal path KNone value defaultRange
        = Done (if decide (m = defaultFilter bounds)
                then delete (modal, path) st
                else <[(modal, path) := with_none false m]> st)).
Proof.
  intros bounds current. subst bounds current.
  split; [intros r | intros value]; cbv zeta;
    unfold setFilter, filterStage_set, with_none; simpl;
    rewrite meetsDefault_decide by reflexivity;
    (case_bool_decide as Hd;
     [rewrite decide_True by exact Hd | rewrite decide_False by exact Hd]);
    reflexivity.
Qed.

Lemma setFilter_normalizes_witness :
  setFilter confidenceEnv narrowedStore false "confidence"
    KRange (SRange (VNum 0, VNum 10)) None
  = Done (delete (false, "confidence"%string) narrowedStore)
  /\ setFilter confidenceEnv narrowedStore false "confidence" KNone SDefault None
     = Done narrowedStore
  /\ setFilter confidenceEnv ∅ false "confidence" KNone SDefault None
     = Done (delete (false, "confidence"%string) ∅)
  /\ setFilter confidenceEnv ∅ false "confidence" KNone (SBool false) None
     = Done flaggedStore.
Proof.
  split; [|split; [|split]].
  - refine (eq_trans
      (proj1 (setFilter_normalizes confidenceEnv narrowedStore false
                "confidence" None) (VNum 0, VNum 10)) _).
    reflexivity.
  - refine (eq_trans
      (proj2 (setFilter_normalizes confidenceEnv narrowedStore false
                "confidence" None) SDefault) _).
    reflexivity.
  - refine (eq_trans
      (proj2 (setFilter_normalizes confidenceEnv ∅ false "confidence" None)
         SDefault) _).
    reflexivity.
  - refine (eq_trans
      (proj2 (setFilter_normalizes confidenceEnv ∅ false "confidence" None)
         (SBool false)) _).
    reflexivity.
Defined.

(** C1, as the claim states it, fails on a range edit: the claim compares
    the merged record as it is, with the [none] it has. With
    [{range: [2, 8], none: false}] stored and bounds [[0, 10]], writing the
    range [[0, 10]] merges to [{range: [0, 10], none: false}], which is not
    the default record, so the claim has the merged record persisted;
    [setFilter] compares it with [none] replaced by [true] and clears the
    key. *)
Lemma setFilter_range_edit_ignores_none :
  boundsAtom confidenceEnv "confidence" None = (VNum 0, VNum 10)
  /\ merged (getFilter confidenceEnv narrowedStore false "confidence" None)
        (EditRange (VNum 0, VNum 10))
     = {| range := (VNum 0, VNum 10); none := false; _CLS := "numeric" |}
  /\ spec_setFilter narrowedStore false "confidence" (VNum 0, VNum 10)
        (getFilter confidenceEnv narrowedStore false "confidence" None)
        (EditRange (VNum 0, VNum 10))
     = <[(false, "confidence"%string) :=
           {| range := (VNum 0, VNum 10); none := false; _CLS := "numeric" |}]>
         narrowedStore
  /\ setFilter confidenceEnv narrowedStore false "confidence"
        KRange (SRange (VNum 0, VNum 10)) None
     = Done (delete (false, "confidence"%string) narrowedStore)
  /\ setFilter confidenceEnv narrowedStore false "confidence"
        KRange (SRange (VNum 0, VNum 10)) None
     <> Done (spec_setFilter narrowedStore false "confidence" (VNum 0, VNum 10)
               (getFilter confidenceEnv narrowedStore false "confidence" None)
               (EditRange (VNum 0, VNum 10))).
Proof.
  assert (Hspec :
    spec_setFilter narrowedStore false "confidence" (VNum 0, VNum 10)
      (getFilter confidenceEnv narrowedStore false "confidence" None)
      (EditRange (VNum 0, VNum 10))
    = <[(false, "confidence"%string) :=
          {| range := (VNum 0, VNum 10); none := false; _CLS := "numeric" |}]>
        narrowedStore) by reflexivity.
  assert (Hcode :
    setFilter confidenceEnv narrowedStore false "confidence"
      KRange (SRange (VNum 0, VNum 10)) None
    = Done (delete (false, "confidence"%string) narrowedStore)) by reflexivity.
  split; [reflexivity|]. split; [reflexivity|].
  split; [exact Hspec|]. split; [exact Hcode|].
  rewrite Hspec, Hcode. intros Heq.
  assert (Hk := f_equal
                  (fun o => match o with
                            | Done m => m !! (false, "confidence"%string)
                            | TypeError => None
                            end) Heq).
  vm_compute in Hk. discriminate.
Qed.

(** Every record that [setFilter] persists has [none] set to [false]. *)
Lemma setFilter_key (e : Env) (st st' : gmap (bool * string) NumericFilter)
    (modal : bool) (path : string) (key : Key) (value : SetValue)
    (defaultRange : option Range) :
  setFilter e st modal path key value defaultRange = Done st' ->
  filterStage_get st' modal path = None
  \/ exists r, filterStage_get st' modal path
               = Some {| range := r; none := false; _CLS := "numeric" |}.
Proof.
  unfold setFilter, filterStage_get.
  destruct (match key with KRange => value | KNone => _ end) as [b|r|];
    try discriminate.
  destruct (meetsDefault _ _); intros Hd; inversion Hd; subst; simpl.
  - left. apply lookup_delete_eq.
  - right. exists r. apply lookup_insert_eq.
Qed.

Lemma applyWrite_normalized (modal : bool) (path : string)
    (st : gmap (bool * string) NumericFilter) (w : Write) :
  normalized st modal path -> normalized (applyWrite modal path st w) modal path.
Proof.
  intros Hst. unfold applyWrite.
  destruct (setFilter _ _ _ _ _ _ _) as [st'|] eqn:Hset; [|exact Hst].
  unfold normalized.
  destruct (setFilter_key _ _ _ _ _ _ _ _ Hset) as [->|[r ->]]; [exact I|].
  intros bounds. now apply meetsDefault_none_false.
Qed.

Lemma applyWrites_normalized (modal : bool) (path : string) (ws : list Write) :
  forall st, normalized st modal path ->
             normalized (applyWrites modal path ws st) modal path.
Proof.
  induction ws as [|w ws IH]; intros st Hst; simpl.
  - exact Hst.
  - apply IH. now apply applyWrite_normalized.
Qed.

(** C2. From a store with no record for (path, modal), after any finite
    sequence of [setFilter] writes to that key, the store holds no record for
    the key or a record for which [meetsDefault] is false: a
    default-equivalent record is never persisted. *)
Theorem store_never_holds_default (modal : bool) (path : string)
    (ws : list Write) (st : gmap (bool * string) NumericFilter) :
  filterStage_get st modal path = None ->
  match filterStage_get (applyWrites modal path ws st) modal path with
  | None => True
  | Some stored => forall bounds, meetsDefault stored bounds = false
  end.
Proof.
  intros Hst. apply (applyWrites_normalized modal path ws st).
  unfold normalized. now rewrite Hst.
Qed.

Lemma store_never_holds_default_witness :
  filterStage_get (applyWrites false "confidence" sampleWrites ∅) false "confidence"
  = Some {| range := (VNum 2, VNum 8); none := false; _CLS := "numeric" |}
  /\ match filterStage_get (applyWrites false "confidence" sampleWrites ∅)
             false "confidence" with
     | None => True
     | Some stored => forall bounds, meetsDefault stored bounds = false
     end.
Proof.
  split.
  - reflexivity.
  - apply (store_never_holds_default false "confidence" sampleWrites ∅).
    reflexivity.
Defined.

(** ** The is-filtered predicate *)

Lemma differs_true (r b : value) :
  differs r b = true <-> r <> b /\ b <> VNull /\ r <> VNull.
Proof.
  unfold differs.
  rewrite !andb_true_iff, !negb_true_iff, !strict_eq_false. tauto.
Qed.

Lemma some_differs (range bounds : Range) :
  differs (fst range) (fst bounds) || differs (snd range) (snd bounds) = true
  <-> exists i, (i < 2)%nat
                /\ at_index range i <> at_index bounds i
                /\ at_index bounds i <> VNull
                /\ at_index range i <> VNull.
Proof.
  rewrite orb_true_iff, !differs_true. split.
  - intros [H|H]; [exists 0%nat | exists 1%nat]; (split; [lia | exact H]).
  - intros [[|i] [_ H]]; [left | right]; exact H.
Qed.

(** C4. [fieldIsFiltered] is true exactly when the derived [none] is false,
    or some position [i] has [range[i]] different from [bounds[i]], both being
    non-null, and the bounds are not degenerate ([bounds[0]] differs from
    [bounds[1]]). *)
Theorem fieldIsFiltered_spec (e : Env) (st : gmap (bool * string) NumericFilter)
    (path : string) (defaultRange : option Range) (modal : bool) :
  let none := noneAtom_get e st defaultRange modal path in
  let range := rangeAtom_get e st defaultRange modal path in
  let bounds := boundsAtom e path defaultRange in
  fieldIsFiltered e st path defaultRange modal = true
  <-> none = false
      \/ ((exists i, (i < 2)%nat
                     /\ at_index range i <> at_index bounds i
                     /\ at_index bounds i <> VNull
                     /\ at_index range i <> VNull)
          /\ at_index bounds 0 <> at_index bounds 1).
Proof.
  intros none range bounds. unfold fieldIsFiltered. fold none range bounds.
  rewrite orb_true_iff, andb_true_iff, !negb_true_iff, strict_eq_false, some_differs.
  reflexivity.
Qed.

Lemma fieldIsFiltered_spec_witness :
  fieldIsFiltered confidenceEnv narrowedStore "confidence" None false = true.
Proof.
  apply (proj2 (fieldIsFiltered_spec confidenceEnv narrowedStore "confidence"
                  None false)).
  left. reflexivity.
Defined.

(** C9. [fieldIsFiltered] is the negation of [noneAtom]: whenever the derived
    [none] is true the derived range is the bounds, so no position differs,
    and the test of the degenerate bounds never changes the result. *)
Theorem fieldIsFiltered_is_not_none (e : Env) (st : gmap (bool * string) NumericFilter)
    (path : string) (defaultRange : option Range) (modal : bool) :
  fieldIsFiltered e st path defaultRange modal
  = negb (noneAtom_get e st defaultRange modal path)
  /\ (noneAtom_get e st defaultRange modal path = true ->
      rangeAtom_get e st defaultRange modal path = boundsAtom e path defaultRange
      /\ differs (fst (rangeAtom_get e st defaultRange modal path))
                 (fst (boundsAtom e path defaultRange))
         || differs (snd (rangeAtom_get e st defaultRange modal path))
                    (snd (boundsAtom e path defaultRange)) = false).
Proof.
  assert (Hsame : noneAtom_get e st defaultRange modal path = true ->
                  rangeAtom_get e st defaultRange modal path
                  = boundsAtom e path defaultRange /\
                  differs (fst (rangeAtom_get e st defaultRange modal path))
                          (fst (boundsAtom e path defaultRange))
                  || differs (snd (rangeAtom_get e st defaultRange modal path))
                             (snd (boundsAtom e path defaultRange)) = false).
  { intros Hn. unfold noneAtom_get in Hn. unfold rangeAtom_get.
    rewrite (getFilter_none_true e st modal path defaultRange Hn).
    split; [reflexivity|]. unfold differs. now rewrite !strict_eq_refl. }
  split; [|exact Hsame].
  unfold fieldIsFiltered.
  destruct (noneAtom_get e st defaultRange modal path) eqn:Hn; [|reflexivity].
  destruct (Hsame eq_refl) as [_ ->]. reflexivity.
Qed.

Lemma fieldIsFiltered_is_not_none_witness :
  fieldIsFiltered confidenceEnv redundantStore "confidence" None false = false
  /\ rangeAtom_get confidenceEnv redundantStore None false "confidence"
     = boundsAtom confidenceEnv "confidence" None.
Proof.
  destruct (fieldIsFiltered_is_not_none confidenceEnv redundantStore
              "confidence" None false) as [Heq Hsame].
  split.
  - rewrite Heq. reflexivity.
  - apply Hsame. reflexivity.
Defined.

(** ** Writes followed by reads *)

Lemma setFilter_range_bounds (e : Env) (st : gmap (bool * string) NumericFilter)
    (modal : bool) (path : string) (defaultRange : option Range) :
  setFilter e st modal path KRange (SRange (boundsAtom e path defaultRange)) defaultRange
  = Done (delete (modal, path) st).
Proof.
  unfold setFilter.
  now rewrite (proj2 (meetsDefault_true _ (boundsAtom e path defaultRange))).
Qed.

Lemma setFilter_range_other (e : Env) (st : gmap (bool * string) NumericFilter)
    (modal : bool) (path : string) (defaultRange : option Range) (r : Range) :
  r <> boundsAtom e path defaultRange ->
  setFilter e st modal path KRange (SRange r) defaultRange
  = Done (<[(modal, path) := {| range := r; none := false; _CLS := "numeric" |}]> st).
Proof.
  intros Hne. unfold setFilter.
  rewrite (proj2 (meetsDefault_false _ (boundsAtom e path defaultRange)));
    [reflexivity|].
  simpl. intros [Heq _]. now apply Hne.
Qed.

(** C10. Writing [none = false] while no record is stored persists
    [{range: bounds, none: false}]; and in any state whose stored record has
    its range equal to the bounds and [none] equal to [false], a write of the
    range with a value equal to the bounds clears the record: the stored
    [none = false] is discarded. *)
Theorem range_write_collapses (e : Env) (st : gmap (bool * string) NumericFilter)
    (modal : bool) (path : string) (defaultRange : option Range) :
  (filterStage_get st modal path = None ->
     noneAtom_set e st defaultRange modal path (SBool false)
     = Done (<[(modal, path) :=
                 {| range := boundsAtom e path defaultRange; none := false;
                    _CLS := "numeric" |}]> st))
  /\ (forall stored,
        filterStage_get st modal path = Some stored ->
        range stored = boundsAtom e path defaultRange ->
        none stored = false ->
        exists st',
          rangeAtom_set e st defaultRange modal path
            (SRange (boundsAtom e path defaultRange)) = Done st'
          /\ filterStage_get st' modal path = None
          /\ st' = delete (modal, path) st).
Proof.
  split.
  - intros Hst. unfold noneAtom_set, setFilter.
    rewrite (getFilter_absent e st modal path defaultRange Hst). simpl.
    rewrite meetsDefault_none_false by reflexivity. reflexivity.
  - intros stored _ _ _. exists (delete (modal, path) st).
    split; [apply setFilter_range_bounds|].
    split; [apply lookup_delete_eq | reflexivity].
Qed.

Lemma range_write_collapses_witness :
  noneAtom_set confidenceEnv ∅ None false "confidence" (SBool false)
  = Done flaggedStore
  /\ exists st',
       rangeAtom_set confidenceEnv flaggedStore None false "confidence"
         (SRange (VNum 0, VNum 10)) = Done st'
       /\ filterStage_get st' false "confidence" = None
       /\ st' = delete (false, "confidence"%string) flaggedStore.
Proof.
  split.
  - apply (proj1 (range_write_collapses confidenceEnv ∅ false "confidence" None)).
    reflexivity.
  - apply (proj2 (range_write_collapses confidenceEnv flaggedStore false
                    "confidence" None)
             {| range := (VNum 0, VNum 10); none := false; _CLS := "numeric" |});
      reflexivity.
Defined.

(** C8. For a field with bounds [[0, 10]] and no stored filter: after
    [rangeAtom] is set to [[2, 8]], [noneAtom] reads [false], [rangeAtom]
    reads [[2, 8]] and [fieldIsFiltered] is [true]; after [rangeAtom] is then
    set back to the bounds, the stored record is cleared, [noneAtom] reads
    [true], [rangeAtom] reads the bounds and [fieldIsFiltered] is [false]. *)
Theorem range_round_trip (e : Env) (st : gmap (bool * string) NumericFilter)
    (modal : bool) (path : string) (defaultRange : option Range) :
  boundsAtom e path defaultRange = (VNum 0, VNum 10) ->
  filterStage_get st modal path = None ->
  exists st1 st2,
    rangeAtom_set e st defaultRange modal path (SRange (VNum 2, VNum 8)) = Done st1
    /\ filterStage_get st1 modal path
       = Some {| range := (VNum 2, VNum 8); none := false; _CLS := "numeric" |}
    /\ noneAtom_get e st1 defaultRange modal path = false
    /\ rangeAtom_get e st1 defaultRange modal path = (VNum 2, VNum 8)
    /\ fieldIsFiltered e st1 path defaultRange modal = true
    /\ rangeAtom_set e st1 defaultRange modal path (SRange (VNum 0, VNum 10)) = Done st2
    /\ filterStage_get st2 modal path = None
    /\ noneAtom_get e st2 defaultRange modal path = true
    /\ rangeAtom_get e st2 defaultRange modal path = (VNum 0, VNum 10)
    /\ fieldIsFiltered e st2 path defaultRange modal = false.
Proof.
  intros Hb Hst.
  set (narrowed := {| range := (VNum 2, VNum 8); none := false; _CLS := "numeric" |}).
  set (st1 := <[(modal, path) := narrowed]> st).
  set (st2 := delete (modal, path) st1).
  assert (H1 : filterStage_get st1 modal path = Some narrowed)
    by apply lookup_insert_eq.
  assert (H2 : filterStage_get st2 modal path = None)
    by apply lookup_delete_eq.
  assert (G1 : getFilter e st1 modal path defaultRange = narrowed).
  { rewrite (getFilter_stored e st1 modal path defaultRange narrowed H1), Hb.
    reflexivity. }
  assert (G2 : getFilter e st2 modal path defaultRange
               = defaultFilter (VNum 0, VNum 10)).
  { now rewrite (getFilter_absent e st2 modal path defaultRange H2), Hb. }
  exists st1, st2. unfold rangeAtom_set, noneAtom_get, rangeAtom_get.
  repeat match goal with |- _ /\ _ => split end.
  - apply setFilter_range_other. rewrite Hb. discriminate.
  - exact H1.
  - now rewrite G1.
  - now rewrite G1.
  - unfold fieldIsFiltered, noneAtom_get. now rewrite G1.
  - rewrite <- Hb. apply setFilter_range_bounds.
  - exact H2.
  - now rewrite G2.
  - now rewrite G2.
  - unfold fieldIsFiltered, noneAtom_get, rangeAtom_get. rewrite G2, Hb. reflexivity.
Qed.

Lemma range_round_trip_witness :
  exists st1 st2,
    rangeAtom_set confidenceEnv ∅ None false "confidence" (SRange (VNum 2, VNum 8))
    = Done st1
    /\ filterStage_get st1 false "confidence"
       = Some {| range := (VNum 2, VNum 8); none := false; _CLS := "numeric" |}
    /\ noneAtom_get confidenceEnv st1 None false "confidence" = false
    /\ rangeAtom_get confidenceEnv st1 None false "confidence" = (VNum 2, VNum 8)
    /\ fieldIsFiltered confidenceEnv st1 "confidence" None false = true
    /\ rangeAtom_set confidenceEnv st1 None false "confidence"
         (SRange (VNum 0, VNum 10)) = Done st2
    /\ filterStage_get st2 false "confidence" = None
    /\ noneAtom_get confidenceEnv st2 None false "confidence" = true
    /\ rangeAtom_get confidenceEnv st2 None false "confidence" = (VNum 0, VNum 10)
    /\ fieldIsFiltered confidenceEnv st2 "confidence" None false = false.
Proof.
  apply (range_round_trip confidenceEnv ∅ false "confidence" None); reflexivity.
Defined.

(** * Further properties *)

(** ** Field-type predicates *)

(** X1. A field that the primitives map does not know is of no type: the
    five predicates return [false], whatever the subfield map holds. *)
Theorem predicates_false_on_unknown_field (fl : FieldLabels) (e : Env) (name : string) :
  primitivesMap e !! name = None ->
  isDateTimeField e name = false
  /\ isDateField e name = false
  /\ isNumericField fl e name = false
  /\ isSupportField fl e name = false
  /\ isIntField fl e name = false.
Proof.
  intros Hn.
  assert (HL : bool_decide (primitivesMap e !! name = Some (LIST_FIELD (labels e)))
               = false).
  { rewrite Hn. apply bool_decide_eq_false_2. discriminate. }
  unfold isDateTimeField, isDateField, isNumericField, isSupportField, isIntField.
  cbv zeta. rewrite HL, !Hn. simpl. rewrite Hn.
  repeat split; apply bool_decide_eq_false_2; discriminate.
Qed.

Lemma predicates_false_on_unknown_field_witness :
  isDateTimeField confidenceEnv "missing" = false
  /\ isDateField confidenceEnv "missing" = false
  /\ isNumericField sampleFieldLabels confidenceEnv "missing" = false
  /\ isSupportField sampleFieldLabels confidenceEnv "missing" = false
  /\ isIntField sampleFieldLabels confidenceEnv "missing" = false.
Proof.
  apply (predicates_false_on_unknown_field sampleFieldLabels confidenceEnv "missing").
  reflexivity.
Defined.

(** X2. When the two type tags differ, no field is both a date-time field
    and a date field: both predicates read the same entry of the same map. *)
Theorem date_kinds_exclusive (e : Env) (name : string) :
  DATE_TIME_FIELD (labels e) <> DATE_FIELD (labels e) ->
  isDateTimeField e name && isDateField e name = false.
Proof.
  intros Hne. unfold isDateTimeField, isDateField.
  destruct (bool_decide (primitivesMap e !! name = Some (LIST_FIELD (labels e)))).
  - apply andb_false_iff.
    destruct (primitivesSubfieldMap e !! name) as [t|] eqn:Ht.
    + destruct (decide (DATE_TIME_FIELD (labels e) = t)) as [<-|Hd].
      * right. apply bool_decide_eq_false_2. congruence.
      * left. apply bool_decide_eq_false_2. congruence.
    + left. apply bool_decide_eq_false_2. discriminate.
  - apply andb_false_iff.
    destruct (primitivesMap e !! name) as [t|] eqn:Ht.
    + destruct (decide (DATE_TIME_FIELD (labels e) = t)) as [<-|Hd].
      * right. apply bool_decide_eq_false_2. congruence.
      * left. apply bool_decide_eq_false_2. congruence.
    + left. apply bool_decide_eq_false_2. discriminate.
Qed.

Lemma date_kinds_exclusive_witness :
  isDateTimeField countsEnv "day" && isDateField countsEnv "day" = false
  /\ isDateField countsEnv "day" = true.
Proof.
  split.
  - apply (date_kinds_exclusive countsEnv "day"). discriminate.
  - reflexivity.
Defined.

(** X3. When the numeric types include the frame-support and the integer
    type, every integer field is a numeric field: both predicates look the
    type up in the same map, behind the same test of the list types. *)
Theorem isIntField_isNumericField (fl : FieldLabels) (e : Env) (name : string) :
  FRAME_SUPPORT_FIELD fl ∈ VALID_NUMERIC_TYPES fl ->
  INT_FIELD fl ∈ VALID_NUMERIC_TYPES fl ->
  isIntField fl e name = true ->
  isNumericField fl e name = true.
Proof.
  intros Hs Hi. unfold isIntField, isNumericField.
  destruct (includes (VALID_LIST_FIELDS fl) (primitivesMap e !! name)).
  - destruct (primitivesSubfieldMap e !! name) as [t|]; simpl; [|discriminate].
    rewrite !bool_decide_eq_true. intros Hin.
    apply elem_of_cons in Hin. destruct Hin as [->|Hin]; [exact Hs|].
    apply list_elem_of_singleton in Hin. now subst.
  - destruct (primitivesMap e !! name) as [t|]; simpl; [|discriminate].
    rewrite !bool_decide_eq_true. intros Hin.
    apply elem_of_cons in Hin. destruct Hin as [->|Hin]; [exact Hs|].
    apply list_elem_of_singleton in Hin. now subst.
Qed.

Lemma isIntField_isNumericField_witness :
  isIntField sampleFieldLabels countsEnv "counts" = true
  /\ isNumericField sampleFieldLabels countsEnv "counts" = true.
Proof.
  split; [reflexivity|].
  apply (isIntField_isNumericField sampleFieldLabels countsEnv "counts").
  - simpl. repeat constructor.
  - simpl. repeat constructor.
  - reflexivity.
Defined.

(** ** Bounds *)

(** X4. When several entries of the statistics match the path, the last one
    decides: the bounds are those of the statistics reduced to that entry. *)
Theorem boundsAtom_last_entry_wins (e : Env) (path : string)
    (pre post : list StatEntry) (cur : StatEntry) (defaultRange : option Range) :
  datasetStats e = Some (pre ++ cur :: post) ->
  matching e path cur ->
  (forall x, x ∈ post -> ~ matching e path x) ->
  boundsAtom e path defaultRange
  = boundsAtom (withStats e (Some [cur])) path defaultRange.
Proof.
  intros Hs Hm Hpost. unfold boundsAtom.
  rewrite (statBounds_last e path pre post cur Hs Hm Hpost).
  rewrite (statBounds_last (withStats e (Some [cur])) path [] [] cur);
    [reflexivity | reflexivity | exact Hm |].
  intros x Hin. inversion Hin.
Qed.

Lemma boundsAtom_last_entry_wins_witness :
  boundsAtom repeatedEnv "confidence" (Some (VNum 0, VNum 5))
  = (VNum 0, VNum 5).
Proof.
  refine (eq_trans
    (boundsAtom_last_entry_wins repeatedEnv "confidence"
       [ {| name := "confidence"; stat_CLS := "Bounds";
            result := (VNum (-100), VNum 100) |} ] []
       {| name := "confidence"; stat_CLS := "Bounds"; result := (VNum 3, VNum 4) |}
       (Some (VNum 0, VNum 5)) _ _ _) _).
  - reflexivity.
  - split; reflexivity.
  - intros x Hin. inversion Hin.
  - reflexivity.
Defined.

(** X5. A [null] in the override counts as [0] in the comparisons: against
    numeric data bounds [[dmin, dmax]], the override [[null, null]] replaces a
    positive minimum and a negative maximum by [null], and leaves the others
    as they are. *)
Theorem boundsAtom_null_override_is_zero (e : Env) (path : string) (dmin dmax : Z) :
  boundsAtom e path None = (VNum dmin, VNum dmax) ->
  boundsAtom e path (Some (VNull, VNull))
  = (if (0 <? dmin)%Z then VNull else VNum dmin,
     if (dmax <? 0)%Z then VNull else VNum dmax).
Proof.
  rewrite boundsAtom_no_override. intros Hb.
  rewrite boundsAtom_widened by (rewrite Hb; discriminate).
  rewrite Hb. reflexivity.
Qed.

Lemma boundsAtom_null_override_is_zero_witness :
  boundsAtom repeatedEnv "confidence" (Some (VNull, VNull)) = (VNull, VNum 4).
Proof.
  apply (boundsAtom_null_override_is_zero repeatedEnv "confidence" 3 4).
  reflexivity.
Defined.

(** X6. An override whose two elements are [undefined] (or objects) never
    wins a comparison: the bounds are those without an override. *)
Theorem boundsAtom_undefined_override_ignored (e : Env) (path : string)
    (omin omax : value) :
  to_number omin = None ->
  to_number omax = None ->
  boundsAtom e path (Some (omin, omax)) = boundsAtom e path None.
Proof.
  intros Hmin Hmax. unfold boundsAtom, js_gt, js_lt.
  rewrite Hmin, Hmax.
  destruct (strict_eq _ VNull && strict_eq _ VNull); [reflexivity|].
  now destruct (to_number (snd (statBounds e path))).
Qed.

Lemma boundsAtom_undefined_override_ignored_witness :
  boundsAtom confidenceEnv "confidence" (Some (VUndefined, VUndefined))
  = (VNum 0, VNum 10).
Proof.
  refine (eq_trans
    (boundsAtom_undefined_override_ignored confidenceEnv "confidence"
       VUndefined VUndefined _ _) _); reflexivity.
Defined.

(** X7. A numeric override that lies within numeric data bounds changes
    nothing: the override widens the bounds and never narrows them. *)
Theorem boundsAtom_override_inside (e : Env) (path : string)
    (dmin dmax omin omax : Z) :
  boundsAtom e path None = (VNum dmin, VNum dmax) ->
  (dmin <= omin)%Z ->
  (omax <= dmax)%Z ->
  boundsAtom e path (Some (VNum omin, VNum omax)) = (VNum dmin, VNum dmax).
Proof.
  rewrite boundsAtom_no_override. intros Hb Hlo Hhi.
  rewrite boundsAtom_widened by (rewrite Hb; discriminate).
  rewrite Hb. simpl. rewrite lesser_num, greater_num.
  f_equal; f_equal; lia.
Qed.

Lemma boundsAtom_override_inside_witness :
  boundsAtom confidenceEnv "confidence" (Some (VNum 2, VNum 8))
  = (VNum 0, VNum 10).
Proof.
  apply (boundsAtom_override_inside confidenceEnv "confidence" 0 10 2 8).
  - reflexivity.
  - lia.
  - lia.
Defined.

(** X8. On a date or date-time field whose bounds entry holds plain non-zero
    numbers instead of wrapped dates, both bounds resolve to [undefined]
    (a number has no [datetime]), and no override changes that. *)
Theorem boundsAtom_date_field_raw_numbers (e : Env) (path : string)
    (pre post : list StatEntry) (cur : StatEntry) (a b : Z)
    (defaultRange : option Range) :
  datasetStats e = Some (pre ++ cur :: post) ->
  matching e path cur ->
  (forall x, x ∈ post -> ~ matching e path x) ->
  isDateTimeField e path || isDateField e path = true ->
  result cur = (VNum a, VNum b) ->
  a <> 0%Z ->
  b <> 0%Z ->
  boundsAtom e path defaultRange = (VUndefined, VUndefined).
Proof.
  intros Hs Hm Hpost Hd Hr Ha Hb.
  assert (Hsb : statBounds e path = (VUndefined, VUndefined)).
  { rewrite (statBounds_last e path pre post cur Hs Hm Hpost).
    unfold entryBounds. rewrite Hd, Hr. unfold unwrapDate. simpl.
    apply Z.eqb_neq in Ha, Hb. now rewrite Ha, Hb. }
  destruct defaultRange as [[omin omax]|].
  - unfold boundsAtom, js_gt, js_lt. rewrite Hsb. simpl.
    now destruct (to_number omin).
  - now rewrite boundsAtom_no_override.
Qed.

Lemma boundsAtom_date_field_raw_numbers_witness :
  boundsAtom countsEnv "day" (Some (VNum 0, VNum 1)) = (VUndefined, VUndefined).
Proof.
  apply (boundsAtom_date_field_raw_numbers countsEnv "day" [] []
           {| name := "day"; stat_CLS := "Bounds";
              result := (VNum 86400000, VNum 172800000) |}
           86400000 172800000).
  - reflexivity.
  - split; reflexivity.
  - intros x Hin. inversion Hin.
  - reflexivity.
  - reflexivity.
  - discriminate.
  - discriminate.
Defined.

(** ** Reads *)

Lemma fieldIsFiltered_negb_none (e : Env) (st : gmap (bool * string) NumericFilter)
    (path : string) (defaultRange : option Range) (modal : bool) :
  fieldIsFiltered e st path defaultRange modal
  = negb (none (getFilter e st modal path defaultRange)).
Proof.
  unfold fieldIsFiltered, noneAtom_get, rangeAtom_get.
  destruct (none (getFilter e st modal path defaultRange)) eqn:Hn; [|reflexivity].
  rewrite (getFilter_none_true e st modal path defaultRange Hn).
  unfold differs. now rewrite !strict_eq_refl.
Qed.

(** X9. A read never clamps: [rangeAtom] returns the stored range as it is,
    inside the bounds or not, and the bounds when nothing is stored; the
    stored kind tag is returned as it is too. *)
Theorem rangeAtom_get_stored (e : Env) (st : gmap (bool * string) NumericFilter)
    (defaultRange : option Range) (modal : bool) (path : string) :
  rangeAtom_get e st defaultRange modal path
  = match filterStage_get st modal path with
    | Some stored => range stored
    | None => boundsAtom e path defaultRange
    end
  /\ _CLS (getFilter e st modal path defaultRange)
     = match filterStage_get st modal path with
       | Some stored => _CLS stored
       | None => "numeric"%string
       end.
Proof.
  unfold rangeAtom_get.
  destruct (filterStage_get st modal path) as [stored|] eqn:Hst.
  - rewrite (getFilter_stored e st modal path defaultRange stored Hst).
    now case_bool_decide.
  - now rewrite (getFilter_absent e st modal path defaultRange Hst).
Qed.

(** X17. With no matching statistics and no stored record, the reads fall
    back to the defaults whatever the override: the range is
    [[null, null]], the flag is [true] and the field is not filtered. *)
Theorem reads_default_without_statistics (e : Env)
    (st : gmap (bool * string) NumericFilter)
    (defaultRange : option Range) (modal : bool) (path : string) :
  (forall cur, cur ∈ default [] (datasetStats e) -> ~ matching e path cur) ->
  filterStage_get st modal path = None ->
  rangeAtom_get e st defaultRange modal path = (VNull, VNull)
  /\ noneAtom_get e st defaultRange modal path = true
  /\ fieldIsFiltered e st path defaultRange modal = false.
Proof.
  intros Hno Hst.
  rewrite fieldIsFiltered_negb_none. unfold rangeAtom_get, noneAtom_get.
  rewrite (getFilter_absent e st modal path defaultRange Hst).
  rewrite (boundsAtom_none e path defaultRange Hno). now repeat split.
Qed.

Lemma reads_default_without_statistics_witness :
  rangeAtom_get unloadedEnv ∅ (Some (VNum 0, VNum 1)) true "confidence"
  = (VNull, VNull)
  /\ noneAtom_get unloadedEnv ∅ (Some (VNum 0, VNum 1)) true "confidence" = true
  /\ fieldIsFiltered unloadedEnv ∅ "confidence" (Some (VNum 0, VNum 1)) true = false.
Proof.
  apply (reads_default_without_statistics unloadedEnv ∅ (Some (VNum 0, VNum 1))
           true "confidence").
  - simpl. intros cur Hin. inversion Hin.
  - reflexivity.
Defined.

(** ** Writes *)

Lemma setFilter_range_result (e : Env) (st : gmap (bool * string) NumericFilter)
    (modal : bool) (path : string) (defaultRange : option Range) (r : Range) :
  setFilter e st modal path KRange (SRange r) defaultRange
  = Done (if bool_decide (r = boundsAtom e path defaultRange)
          then delete (modal, path) st
          else <[(modal, path) := {| range := r; none := false; _CLS := "numeric" |}]> st).
Proof.
  case_bool_decide as Hr.
  - subst r. apply setFilter_range_bounds.
  - now apply setFilter_range_other.
Qed.

Lemma setFilter_none_result (e : Env) (st : gmap (bool * string) NumericFilter)
    (modal : bool) (path : string) (defaultRange : option Range) (v : SetValue) :
  setFilter e st modal path KNone v defaultRange
  = Done (if Boolean v
             && bool_decide (range (getFilter e st modal path defaultRange)
                             = boundsAtom e path defaultRange)
          then delete (modal, path) st
          else <[(modal, path) :=
                   {| range := range (getFilter e st modal path defaultRange);
                      none := false; _CLS := "numeric" |}]> st).
Proof.
  unfold setFilter.
  destruct (meetsDefault _ _) eqn:Hm.
  - apply meetsDefault_true in Hm. simpl in Hm. destruct Hm as [Hr Hb].
    now rewrite Hb, bool_decide_eq_true_2.
  - apply meetsDefault_false in Hm. simpl in Hm.
    destruct (Boolean v); [|reflexivity].
    rewrite bool_decide_eq_false_2; [reflexivity|].
    intros Hr. now apply Hm.
Qed.

Lemma getFilter_after_delete (e : Env) (st : gmap (bool * string) NumericFilter)
    (modal : bool) (path : string) (defaultRange : option Range) :
  getFilter e (delete (modal, path) st) modal path defaultRange
  = defaultFilter (boundsAtom e path defaultRange).
Proof. apply getFilter_absent. apply lookup_delete_eq. Qed.

Lemma getFilter_after_insert (e : Env) (st : gmap (bool * string) NumericFilter)
    (modal : bool) (path : string) (defaultRange : option Range) (r : Range) :
  getFilter e (<[(modal, path) := {| range := r; none := false; _CLS := "numeric" |}]> st)
    modal path defaultRange
  = {| range := r; none := false; _CLS := "numeric" |}.
Proof.
  rewrite (getFilter_stored e _ modal path defaultRange
             {| range := r; none := false; _CLS := "numeric" |})
    by apply lookup_insert_eq.
  now case_bool_decide.
Qed.

(** X10. What is written to [rangeAtom] is what it reads: after a write of
    the range [r], [rangeAtom] reads [r], [noneAtom] reads [true] exactly when
    [r] is the bounds, and the field is filtered exactly when it is not; the
    flag that was there before the write plays no part. *)
Theorem rangeAtom_set_get (e : Env) (st : gmap (bool * string) NumericFilter)
    (defaultRange : option Range) (modal : bool) (path : string) (r : Range) :
  exists st',
    rangeAtom_set e st defaultRange modal path (SRange r) = Done st'
    /\ rangeAtom_get e st' defaultRange modal path = r
    /\ noneAtom_get e st' defaultRange modal path
       = bool_decide (r = boundsAtom e path defaultRange)
    /\ fieldIsFiltered e st' path defaultRange modal
       = negb (bool_decide (r = boundsAtom e path defaultRange)).
Proof.
  unfold rangeAtom_set. rewrite setFilter_range_result.
  eexists. split; [reflexivity|].
  rewrite fieldIsFiltered_negb_none. unfold rangeAtom_get, noneAtom_get.
  case_bool_decide as Hr.
  - rewrite getFilter_after_delete. subst r. now repeat split.
  - rewrite getFilter_after_insert. now repeat split.
Qed.

(** X11. A write to [noneAtom] never throws and keeps the range that was
    read before it; the flag reads back [true] only when the written value is
    truthy and that range is the bounds: next to a narrowed range, a written
    [true] reads back [false]. *)
Theorem noneAtom_set_get (e : Env) (st : gmap (bool * string) NumericFilter)
    (defaultRange : option Range) (modal : bool) (path : string) (v : SetValue) :
  exists st',
    noneAtom_set e st defaultRange modal path v = Done st'
    /\ rangeAtom_get e st' defaultRange modal path
       = rangeAtom_get e st defaultRange modal path
    /\ noneAtom_get e st' defaultRange modal path
       = Boolean v
         && bool_decide (rangeAtom_get e st defaultRange modal path
                         = boundsAtom e path defaultRange).
Proof.
  unfold noneAtom_set. rewrite setFilter_none_result.
  eexists. split; [reflexivity|].
  unfold rangeAtom_get, noneAtom_get.
  destruct (Boolean v); simpl.
  - case_bool_decide as Hr.
    + rewrite getFilter_after_delete. simpl. now split.
    + rewrite getFilter_after_insert. now split.
  - rewrite getFilter_after_insert. now split.
Qed.

(** X16. A write to [rangeAtom] throws exactly when its value is not a
    range (a reset hands it Recoil's [DefaultValue]), and the store is then
    left as it was; a write to [noneAtom] never throws. *)
Theorem writes_throw_only_without_range (e : Env)
    (st : gmap (bool * string) NumericFilter)
    (defaultRange : option Range) (modal : bool) (path : string) (v : SetValue) :
  (rangeAtom_set e st defaultRange modal path v = TypeError
   <-> forall r, v <> SRange r)
  /\ (rangeAtom_set e st defaultRange modal path v = TypeError ->
      applyWrite modal path st
        {| w_env := e; w_key := KRange; w_value := v;
           w_defaultRange := defaultRange |} = st)
  /\ noneAtom_set e st defaultRange modal path v <> TypeError.
Proof.
  split; [|split].
  - unfold rangeAtom_set. destruct v as [b|r|].
    + split; [intros _ r; discriminate | reflexivity].
    + rewrite setFilter_range_result. split; [discriminate|].
      intros Hr. now destruct (Hr r).
    + split; [intros _ r; discriminate | reflexivity].
  - unfold rangeAtom_set, applyWrite. simpl. now intros ->.
  - unfold noneAtom_set. rewrite setFilter_none_result. discriminate.
Qed.

Lemma writes_throw_only_without_range_witness :
  rangeAtom_set confidenceEnv narrowedStore None false "confidence" SDefault
  = TypeError
  /\ applyWrite false "confidence" narrowedStore
       {| w_env := confidenceEnv; w_key := KRange; w_value := SDefault;
          w_defaultRange := None |} = narrowedStore.
Proof.
  destruct (writes_throw_only_without_range confidenceEnv narrowedStore None
              false "confidence" SDefault) as [Hiff [Hkeep _]].
  assert (Ht : rangeAtom_set confidenceEnv narrowedStore None false "confidence"
                 SDefault = TypeError).
  { apply (proj2 Hiff). intros r. discriminate. }
  split; [exact Ht | exact (Hkeep Ht)].
Defined.

(** ** Writes and the rest of the store *)

Lemma setFilter_elsewhere (e : Env) (st st' : gmap (bool * string) NumericFilter)
    (modal : bool) (path : string) (key : Key) (value : SetValue)
    (defaultRange : option Range) (k : bool * string) :
  setFilter e st modal path key value defaultRange = Done st' ->
  k <> (modal, path) ->
  st' !! k = st !! k.
Proof.
  unfold setFilter, filterStage_set.
  destruct (match key with KRange => value | KNone => _ end) as [b|r|];
    try discriminate.
  destruct (meetsDefault _ _); intros Hd Hk; inversion Hd; subst.
  - now apply lookup_delete_ne.
  - now apply lookup_insert_ne.
Qed.

Lemma applyWrite_elsewhere (modal : bool) (path : string)
    (st : gmap (bool * string) NumericFilter) (w : Write) (k : bool * string) :
  k <> (modal, path) ->
  applyWrite modal path st w !! k = st !! k.
Proof.
  intros Hk. unfold applyWrite.
  destruct (setFilter _ _ _ _ _ _ _) as [st'|] eqn:Hset; [|reflexivity].
  exact (setFilter_elsewhere _ _ _ _ _ _ _ _ k Hset Hk).
Qed.

(** Two stores that agree off a key are the same once the key is
    overwritten or cleared. *)
Lemma overwrite_agree (st1 st2 : gmap (bool * string) NumericFilter)
    (k : bool * string) :
  (forall k', k' <> k -> st1 !! k' = st2 !! k') ->
  delete k st1 = delete k st2
  /\ forall f, <[k := f]> st1 = <[k := f]> st2.
Proof.
  intros Hag. split; [|intros f]; apply map_eq; intros k'.
  - destruct (decide (k' = k)) as [->|Hne].
    + now rewrite !lookup_delete_eq.
    + rewrite !lookup_delete_ne by congruence. now apply Hag.
  - destruct (decide (k' = k)) as [->|Hne].
    + now rewrite !lookup_insert_eq.
    + rewrite !lookup_insert_ne by congruence. now apply Hag.
Qed.

(** X12. A write touches the one key it is made for: the record of any
    other field, and of the same field in the other view (modal or grid),
    stays as it was, and so does every filter derived from it. *)
Theorem setFilter_other_keys (e e' : Env) (st st' : gmap (bool * string) NumericFilter)
    (modal modal' : bool) (path path' : string) (key : Key) (value : SetValue)
    (defaultRange defaultRange' : option Range) :
  setFilter e st modal path key value defaultRange = Done st' ->
  (modal', path') <> (modal, path) ->
  filterStage_get st' modal' path' = filterStage_get st modal' path'
  /\ getFilter e' st' modal' path' defaultRange'
     = getFilter e' st modal' path' defaultRange'
  /\ fieldIsFiltered e' st' path' defaultRange' modal'
     = fieldIsFiltered e' st path' defaultRange' modal'.
Proof.
  intros Hset Hk.
  assert (Hsame : filterStage_get st' modal' path' = filterStage_get st modal' path')
    by exact (setFilter_elsewhere _ _ _ _ _ _ _ _ _ Hset Hk).
  assert (Hget : getFilter e' st' modal' path' defaultRange'
                 = getFilter e' st modal' path' defaultRange')
    by (unfold getFilter; now rewrite Hsame).
  split; [exact Hsame|]. split; [exact Hget|].
  rewrite !fieldIsFiltered_negb_none. now rewrite Hget.
Qed.

Lemma setFilter_other_keys_witness :
  exists st',
    setFilter confidenceEnv twoViewStore false "confidence" KRange
      (SRange (VNum 0, VNum 10)) None = Done st'
    /\ filterStage_get st' false "confidence" = None
    /\ filterStage_get st' true "confidence"
       = Some {| range := (VNum 1, VNum 9); none := false; _CLS := "numeric" |}
    /\ fieldIsFiltered confidenceEnv st' "confidence" None true = true.
Proof.
  exists (delete (false, "confidence"%string) twoViewStore).
  assert (Hset : setFilter confidenceEnv twoViewStore false "confidence" KRange
                   (SRange (VNum 0, VNum 10)) None
                 = Done (delete (false, "confidence"%string) twoViewStore))
    by reflexivity.
  destruct (setFilter_other_keys confidenceEnv confidenceEnv twoViewStore
              (delete (false, "confidence"%string) twoViewStore)
              false true "confidence" "confidence" KRange
              (SRange (VNum 0, VNum 10)) None None Hset)
    as [Hrec [_ Hfilt]]; [discriminate|].
  split; [exact Hset|]. split; [reflexivity|].
  split; [rewrite Hrec | rewrite Hfilt]; reflexivity.
Defined.

Lemma setFilter_range_after_write (e : Env) (st : gmap (bool * string) NumericFilter)
    (modal : bool) (path : string) (defaultRange : option Range)
    (r : Range) (w : Write) :
  setFilter e (applyWrite modal path st w) modal path KRange (SRange r) defaultRange
  = setFilter e st modal path KRange (SRange r) defaultRange.
Proof.
  rewrite !setFilter_range_result.
  destruct (overwrite_agree (applyWrite modal path st w) st (modal, path))
    as [Hdel Hins].
  { intros k' Hk'. now apply applyWrite_elsewhere. }
  now rewrite Hdel, Hins.
Qed.

(** X13. A write of a range forgets what earlier writes to the key left:
    made after any other write to the key, it gives the store it gives when
    made alone. *)
Theorem range_write_forgets (e : Env) (st : gmap (bool * string) NumericFilter)
    (modal : bool) (path : string) (defaultRange : option Range)
    (r : Range) (w : Write) :
  rangeAtom_set e (applyWrite modal path st w) defaultRange modal path (SRange r)
  = rangeAtom_set e st defaultRange modal path (SRange r).
Proof. apply setFilter_range_after_write. Qed.

(** X14. Writes are idempotent: the same write made twice in a row leaves
    the store that one write leaves. *)
Theorem applyWrite_idempotent (modal : bool) (path : string)
    (st : gmap (bool * string) NumericFilter) (w : Write) :
  applyWrite modal path (applyWrite modal path st w) w
  = applyWrite modal path st w.
Proof.
  destruct w as [e key v dr]. destruct key.
  - destruct v as [b|r|]; try reflexivity.
    unfold applyWrite at 1. simpl.
    rewrite setFilter_range_after_write. unfold applyWrite. simpl.
    now rewrite setFilter_range_result.
  - unfold applyWrite. simpl. rewrite (setFilter_none_result e st).
    set (cur := range (getFilter e st modal path dr)).
    destruct (Boolean v && bool_decide (cur = boundsAtom e path dr)) eqn:Hc.
    + rewrite setFilter_none_result, getFilter_after_delete. simpl.
      apply andb_true_iff in Hc. destruct Hc as [-> _].
      rewrite bool_decide_eq_true_2 by reflexivity. simpl.
      apply delete_delete_eq.
    + rewrite setFilter_none_result, getFilter_after_insert. simpl.
      rewrite Hc. apply insert_insert_eq.
Qed.

(** X15. After any sequence of writes to a key that started unset, the
    field is filtered exactly when a record is kept under the key, whatever
    the statistics and the override are at the time of the read: a kept
    record counts as a filter even when the bounds have since moved onto its
    range. *)
Theorem filtered_iff_record_kept (e : Env) (defaultRange : option Range)
    (modal : bool) (path : string) (ws : list Write)
    (st : gmap (bool * string) NumericFilter) :
  filterStage_get st modal path = None ->
  (fieldIsFiltered e (applyWrites modal path ws st) path defaultRange modal = true
   <-> exists stored,
         filterStage_get (applyWrites modal path ws st) modal path = Some stored).
Proof.
  intros Hst.
  assert (Hn : normalized (applyWrites modal path ws st) modal path).
  { apply applyWrites_normalized. unfold normalized. now rewrite Hst. }
  unfold normalized in Hn. rewrite fieldIsFiltered_negb_none.
  destruct (filterStage_get (applyWrites modal path ws st) modal path)
    as [stored|] eqn:Hk.
  - rewrite (getFilter_stored e _ modal path defaultRange stored Hk).
    assert (Hf : none stored = false).
    { specialize (Hn (range stored)). apply meetsDefault_false in Hn.
      destruct (none stored); [|reflexivity]. exfalso. now apply Hn. }
    split; [intros _; now exists stored|]. intros _.
    case_bool_decide; simpl; now rewrite ?Hf.
  - rewrite (getFilter_absent e _ modal path defaultRange Hk). simpl.
    split; [discriminate | intros [stored Hs]; discriminate].
Qed.

Lemma filtered_iff_record_kept_witness :
  fieldIsFiltered (withStats confidenceEnv
                     (Some [ {| name := "confidence"; stat_CLS := "Bounds";
                                result := (VNum 2, VNum 8) |} ]))
    (applyWrites false "confidence" sampleWrites ∅) "confidence" None false
  = true.
Proof.
  refine (proj2 (filtered_iff_record_kept
                  (withStats confidenceEnv
                     (Some [ {| name := "confidence"; stat_CLS := "Bounds";
                                result := (VNum 2, VNum 8) |} ]))
                  None false "confidence" sampleWrites ∅ _) _).
  - reflexivity.
  - exists {| range := (VNum 2, VNum 8); none := false; _CLS := "numeric" |}.
    reflexivity.
Defined.

(** X18. Undoing an edit of an unset key restores the store itself:
    switching the flag off and on again, or narrowing the range and setting
    it back to the bounds, leaves the store as it was before the two
    writes. *)
Theorem edits_undone_restore_store (e : Env) (st : gmap (bool * string) NumericFilter)
    (defaultRange : option Range) (modal : bool) (path : string) (r : Range) :
  filterStage_get st modal path = None ->
  applyWrites modal path
    [ {| w_env := e; w_key := KNone; w_value := SBool false;
         w_defaultRange := defaultRange |};
      {| w_env := e; w_key := KNone; w_value := SBool true;
         w_defaultRange := defaultRange |} ] st = st
  /\ applyWrites modal path
       [ {| w_env := e; w_key := KRange; w_value := SRange r;
            w_defaultRange := defaultRange |};
         {| w_env := e; w_key := KRange;
            w_value := SRange (boundsAtom e path defaultRange);
            w_defaultRange := defaultRange |} ] st = st.
Proof.
  intros Hst. unfold filterStage_get in Hst. split.
  - unfold applyWrites, applyWrite. simpl.
    rewrite (setFilter_none_result e st). simpl.
    rewrite setFilter_none_result, getFilter_after_insert. simpl.
    rewrite (getFilter_absent e st modal path defaultRange Hst). simpl.
    rewrite bool_decide_eq_true_2 by reflexivity.
    rewrite delete_insert_eq. now apply delete_id.
  - unfold applyWrites. simpl. unfold applyWrite at 1. simpl.
    rewrite setFilter_range_after_write, setFilter_range_bounds.
    now apply delete_id.
Qed.

Lemma edits_undone_restore_store_witness :
  applyWrites true "confidence"
    [ {| w_env := confidenceEnv; w_key := KNone; w_value := SBool false;
         w_defaultRange := None |};
      {| w_env := confidenceEnv; w_key := KNone; w_value := SBool true;
         w_defaultRange := None |} ] narrowedStore = narrowedStore.
Proof.
  apply (proj1 (edits_undone_restore_store confidenceEnv narrowedStore None
                  true "confidence" (VNum 2, VNum 8) eq_refl)).
Defined.
